(** * alertmanager-sentry-gateway: the webhook to Sentry pipeline

    A shallow embedding of [sentry-gateway.go]: the template set-up of
    [run], the webhook handler registered on the mux, the [worker] loop,
    the channel that joins them and the shutdown sequence at the end of
    [run], followed by the properties proved about them.

    Library code the program calls (html/template, net/http's ServeMux,
    encoding/json, raven-go, Go channels) is modelled only as far as the
    program uses it; what a library decides and the program cannot see
    (decoding of a body, event identifiers, the clock, the method set of
    [template.KV]) is a [Variable] of the section that uses it. *)

From Stdlib Require Import ZArith Ascii String.
From stdpp Require Import base strings list gmap relations.

Open Scope string_scope.
Open Scope list_scope.

(** ** Strings and formatting *)

(** The newline the source writes as [\n]. *)
Definition nl : string := String (Ascii.ascii_of_nat 10) "".

(** [fmt.Sprintf("%s/%s", a, b)]. *)
Definition Sprintf_s_slash_s (a b : string) : string := a +:+ "/" +:+ b.

(** ** Data model (alertmanager's [template] and [notify] packages) *)

(** [template.KV], a [map[string]string]. *)
Abbreviation KV := (gmap string string).

(** Indexing a Go map, [m[k]]: the zero value when the key is absent
    (also on a nil map, which is the empty map here). *)
Definition index (m : KV) (k : string) : string :=
  match m !! k with
  | Some v => v
  | None => ""
  end.

(** [time.Time], an instant; [raven.Timestamp] is a conversion of it. *)
Definition Time : Type := Z.

(** [template.Alert]: the fields the program reads. *)
Record Alert : Type := mkAlert {
  Labels : KV;
  Annotations : KV;
  StartsAt : Time;
  EndsAt : Time
}.

(** [template.Data]: the program reads [Alerts] only. *)
Record Data : Type := mkData {
  Alerts : list Alert
}.

(** [notify.WebhookMessage] embeds [*template.Data]: the pointer stays
    nil when the decoded body sets no field of [Data]. Its own fields
    are not read by the program. *)
Record WebhookMessage : Type := mkWebhookMessage {
  MsgData : option Data
}.

(** ** Template engine (html/template over text/template)

    The fragment modelled: templates made of literal text and of actions
    [{{ .Labels.k }}], [{{ .Annotations.k }}], possibly followed by more
    field names ([{{ .Labels.k.x }}]), with the text free of [<], so
    that every action stands in HTML text context. *)

Module Template.

(** The two map-valued fields of [template.Alert]. *)
Inductive Root : Type := RLabels | RAnnotations.

(** Functions html/template appends to a pipeline. *)
Inductive Func : Type :=
| HTMLEscaper.   (* _html_template_htmlescaper *)

Inductive Node : Type :=
| Text (s : string)
| Action (root : Root) (key : string) (rest : list string) (pipe : list Func).

(** [Option("missingkey=...")]. *)
Inductive MissingKey : Type := MapInvalid | MapZeroValue | MapError.

Record Template : Type := mkTemplate {
  missingKey : MissingKey;
  tree : list Node
}.

Inductive ExecError : Type :=
| CantEvaluateField (field typ : string)
    (* can't evaluate field <field> in type <typ> *)
| NoEntryForKey (key : string)
    (* map has no entry for key <key> *)
| CallError (method : string).
    (* a method of the map type was named and its call failed *)

(** *** Parsing: [t.Parse(tmpl)] on the fragment

    [None] stands for a parse error or for a template outside the
    fragment. *)

Definition is_space (c : ascii) : bool :=
  match c with
  | " "%char | "009"%char | "010"%char | "013"%char => true
  | _ => false
  end.

Definition is_alpha (c : ascii) : bool :=
  let n := Ascii.nat_of_ascii c in
  ((65 <=? n)%nat && (n <=? 90)%nat) || ((97 <=? n)%nat && (n <=? 122)%nat) || (n =? 95)%nat.

Definition is_digit (c : ascii) : bool :=
  let n := Ascii.nat_of_ascii c in (48 <=? n)%nat && (n <=? 57)%nat.

Definition string_rev_of (l : list ascii) : string :=
  string_of_list_ascii (rev l).

(** Lexer states; character lists are kept in reverse. *)
Inductive LexState : Type :=
| InText (txt : list ascii)
| SawBrace (txt : list ascii)                      (* text, then one [{] *)
| ActionStart                                      (* after [{{], blanks *)
| AfterDot (chain : list string)                   (* after a [.] *)
| InIdent (chain : list string) (cur : list ascii) (* inside a field name *)
| ActionEnd (chain : list string)                  (* blanks before [}}] *)
| SawClose (chain : list string).                  (* after one [}] *)

Definition node_of_chain (chain : list string) : option Node :=
  match chain with
  | "Labels" :: key :: rest => Some (Action RLabels key rest [])
  | "Annotations" :: key :: rest => Some (Action RAnnotations key rest [])
  | _ => None
  end.

Definition flush_text (txt : list ascii) (acc : list Node) : list Node :=
  match txt with
  | [] => acc
  | _ => acc ++ [Text (string_rev_of txt)]
  end.

Fixpoint lex (st : LexState) (acc : list Node) (s : string)
  : option (list Node) :=
  match s with
  | EmptyString =>
      match st with
      | InText txt => Some (flush_text txt acc)
      | SawBrace txt => Some (flush_text ("{"%char :: txt) acc)
      | _ => None                                   (* unclosed action *)
      end
  | String c s' =>
      match st with
      | InText txt =>
          if Ascii.eqb c "{" then lex (SawBrace txt) acc s'
          else lex (InText (c :: txt)) acc s'
      | SawBrace txt =>
          if Ascii.eqb c "{" then lex ActionStart (flush_text txt acc) s'
          else lex (InText (c :: "{"%char :: txt)) acc s'
      | ActionStart =>
          if is_space c then lex ActionStart acc s'
          else if Ascii.eqb c "." then lex (AfterDot []) acc s'
          else None
      | AfterDot chain =>
          if is_alpha c then lex (InIdent chain [c]) acc s' else None
      | InIdent chain cur =>
          if is_alpha c || is_digit c then lex (InIdent chain (c :: cur)) acc s'
          else
            let chain' := chain ++ [string_rev_of cur] in
            if Ascii.eqb c "." then lex (AfterDot chain') acc s'
            else if is_space c then lex (ActionEnd chain') acc s'
            else if Ascii.eqb c "}" then lex (SawClose chain') acc s'
            else None
      | ActionEnd chain =>
          if is_space c then lex (ActionEnd chain) acc s'
          else if Ascii.eqb c "}" then lex (SawClose chain) acc s'
          else None
      | SawClose chain =>
          if Ascii.eqb c "}" then
            match node_of_chain chain with
            | Some n => lex (InText []) (acc ++ [n]) s'
            | None => None
            end
          else None
      end
  end.

(** [template.New("").Option(opt)] then [Parse(src)]. *)
Definition Parse (opt : MissingKey) (src : string) : option Template :=
  match lex (InText []) [] src with
  | Some ns => Some (mkTemplate opt ns)
  | None => None
  end.

(** *** Contextual escaping (html/template, run before execution)

    Text without [<] leaves the escaper in text context, where each
    action gets the HTML escaper appended to its pipeline. A text
    holding [<] opens a tag or comment context: outside the fragment. *)

Fixpoint has_lt (s : string) : bool :=
  match s with
  | EmptyString => false
  | String c s' => Ascii.eqb c "<" || has_lt s'
  end.

Definition in_text_context (ns : list Node) : bool :=
  forallb (fun n => match n with Text s => negb (has_lt s) | _ => true end) ns.

Definition escapeNode (n : Node) : Node :=
  match n with
  | Text s => Text s
  | Action root key rest pipe => Action root key rest (pipe ++ [HTMLEscaper])
  end.

Definition escapeTemplate (t : Template) : Template :=
  mkTemplate (missingKey t) (map escapeNode (tree t)).

(** [htmlReplacementTable]. *)
Definition htmlReplacement (c : ascii) : string :=
  match Ascii.nat_of_ascii c with
  | 0 => String "239" (String "191" (String "189" ""))   (* U+FFFD *)
  | 34 => "&#34;"
  | 38 => "&amp;"
  | 39 => "&#39;"
  | 43 => "&#43;"
  | 60 => "&lt;"
  | 62 => "&gt;"
  | _ => String c ""
  end.

Fixpoint HTMLEscape (s : string) : string :=
  match s with
  | EmptyString => ""
  | String c s' => htmlReplacement c +:+ HTMLEscape s'
  end.

Definition applyFunc (f : Func) (s : string) : string :=
  match f with
  | HTMLEscaper => HTMLEscape s
  end.

(** *** Execution (text/template's [exec.go]) *)

Section Exec.

(** The method set of [template.KV], declared in alertmanager:
    [KV_method name] is [Some call] when [name] is one of its
    methods, [call m rest] being what the engine prints for
    [.Labels.name.rest...] on the map [m]. *)
Variable KV_method : string -> option (KV -> list string -> ExecError + string).

(** What the engine prints for an absent value under the default
    option ([missingkey=invalid]); not used under [missingkey=zero]. *)
Variable no_value : string.

(** Values of the fragment: a string, or the invalid reflect.Value. *)
Inductive Value : Type := VString (s : string) | VInvalid.

(** Only exported names are found by [MethodByName]. *)
Definition unexported (name : string) : bool :=
  match name with
  | EmptyString => true
  | String c _ =>
      let n := Ascii.nat_of_ascii c in
      ((97 <=? n)%nat && (n <=? 122)%nat) || (n =? 95)%nat || is_digit c
  end.

Definition MethodByName (name : string) :=
  if unexported name then None else KV_method name.

Definition field (root : Root) (a : Alert) : KV :=
  match root with
  | RLabels => Labels a
  | RAnnotations => Annotations a
  end.

(** [evalField] with a map receiver. *)
Definition evalMapField (opt : MissingKey) (m : KV) (key : string)
  : ExecError + Value :=
  match m !! key with
  | Some v => inr (VString v)
  | None =>
      match opt with
      | MapInvalid => inr VInvalid
      | MapZeroValue => inr (VString "")
      | MapError => inl (NoEntryForKey key)
      end
  end.

(** [evalField] with the value of a map entry as receiver. *)
Definition evalValueField (v : Value) (name : string) : ExecError + Value :=
  match v with
  | VString _ => inl (CantEvaluateField name "string")
  | VInvalid => inr VInvalid
  end.

Fixpoint evalChain (v : Value) (rest : list string) : ExecError + Value :=
  match rest with
  | [] => inr v
  | name :: rest' =>
      match evalValueField v name with
      | inl e => inl e
      | inr v' => evalChain v' rest'
      end
  end.

Definition printValue (v : Value) : string :=
  match v with
  | VString s => s
  | VInvalid => no_value
  end.

Definition evalAction (opt : MissingKey) (a : Alert)
    (root : Root) (key : string) (rest : list string) : ExecError + string :=
  match MethodByName key with
  | Some call => call (field root a) rest
  | None =>
      match evalMapField opt (field root a) key with
      | inl e => inl e
      | inr v =>
          match evalChain v rest with
          | inl e => inl e
          | inr v' => inr (printValue v')
          end
      end
  end.

(** [walk]: the nodes in order, writing to the buffer; the error is
    returned with what was written before it. *)
Fixpoint walk (opt : MissingKey) (a : Alert) (ns : list Node) (buf : string)
  : string * option ExecError :=
  match ns with
  | [] => (buf, None)
  | Text s :: ns' => walk opt a ns' (buf +:+ s)
  | Action root key rest pipe :: ns' =>
      match evalAction opt a root key rest with
      | inl e => (buf, Some e)
      | inr s => walk opt a ns' (buf +:+ fold_left (fun s f => applyFunc f s) pipe s)
      end
  end.

(** [t.Execute(&buf, alert)] into an empty buffer: what the buffer
    holds afterwards, and the error. *)
Definition Execute (t : Template) (a : Alert) : string * option ExecError :=
  walk (missingKey t) a (tree t) "".

End Exec.

(** html/template's [Parse] followed by the escaping it performs on
    first execution: the tree [Execute] walks. [None]: parse error, or
    outside the fragment. *)
Definition html_Parse (opt : MissingKey) (src : string) : option Template :=
  match Parse opt src with
  | Some t => if in_text_context (tree t) then Some (escapeTemplate t) else None
  | None => None
  end.

End Template.

(** ** Start-up: lines 29-31 and 86-101 *)

Definition defaultTemplate : string :=
  "{{ .Labels.alertname }} - {{ .Labels.namespace }}/{{ .Labels.pod_name}}"
  +:+ nl +:+ "{{ .Annotations.message }}".

(** [tmplPath] and, when it is set, the outcome of [ioutil.ReadFile]. *)
Definition template_source (tmplPath : string) (file : option string)
  : option string :=
  if decide (tmplPath = "") then Some defaultTemplate
  else file.

(** [template.New("").Option("missingkey=zero")], then [Parse]. *)
Definition compile (tmpl : string) : option Template.Template :=
  Template.html_Parse Template.MapZeroValue tmpl.

(** ** Sentry client (raven-go) *)

(** [raven.Packet]: the fields the program sets. [Extra] holds
    [raven.Timestamp] values under its two keys. *)
Record Packet : Type := mkPacket {
  Timestamp : Time;
  Message : string;
  Extra : gmap string Time;
  Logger : string;
  Fingerprint : list string;
  ServerName : string
}.

(** ** The worker: lines 156-189 *)

(** What the worker does to the outside, in program order. [Capture n]
    is the worker's [n]-th call of [raven.Capture], [Await n] the
    receive [<-ch] on the channel that call returned. *)
Inductive Event (E : Type) : Type :=
| Fprintf_Stderr (format : string) (err : E)
| Capture (n : nat) (packet : Packet) (tags : KV)
| Await (n : nat)
| Log_Printf (format : string) (args : list string)
| NilDereference.
Arguments Fprintf_Stderr {E} format err.
Arguments Capture {E} n packet tags.
Arguments Await {E} n.
Arguments Log_Printf {E} format args.
Arguments NilDereference {E}.

Section Worker.

Context {Tmpl E : Type}.

(** [t.Execute(&buf, alert)] on a fresh buffer: the buffer's contents
    afterwards and the error returned. *)
Variable Execute : Tmpl -> Alert -> string * option E.

(** [time.Now()] at the worker's [n]-th alert. *)
Variable Now : nat -> Time.

(** The event identifier [raven.Capture] returns at the [n]-th call. *)
Variable EventID : nat -> Packet -> string.

(** Lines 159-171: the message and what is written to standard error. *)
Definition render (t : Tmpl) (alert : Alert) : list (Event E) * string :=
  let '(buf, err) := Execute t alert in
  match err with
  | Some e =>
      ([Fprintf_Stderr ("Invalid template: %s" +:+ nl) e],
       if decide (index (Labels alert) "alertname" = "") then "fallback"
       else index (Labels alert) "alertname")
  | None => ([], buf)
  end.

(** Lines 172-181. *)
Definition build_packet (now : Time) (msg : string) (alert : Alert) : Packet :=
  {| Timestamp := now;
     Message := msg;
     Extra := <["firing_since" := StartsAt alert]>
                (<["firing_until" := EndsAt alert]> ∅);
     Logger := "alertmanager";
     Fingerprint := [index (Labels alert) "alertname";
                     index (Labels alert) "namespace";
                     index (Labels alert) "pod_name"];
     ServerName := Sprintf_s_slash_s (index (Labels alert) "namespace")
                                     (index (Labels alert) "pod_name") |}.

(** One iteration of the inner loop, lines 159-186. *)
Definition dispatch (t : Tmpl) (n : nat) (alert : Alert) : list (Event E) :=
  let '(logged, msg) := render t alert in
  let packet := build_packet (Now n) msg alert in
  let eventID := EventID n packet in
  logged ++
  [Capture n packet (Labels alert);
   Await n;
   Log_Printf ("event_id:%s alert_name:%s" +:+ nl)
              [eventID; index (Labels alert) "alertname"]].

(** The inner loop, [for _, alert := range wh.Alerts]. *)
Fixpoint range_alerts (t : Tmpl) (n : nat) (alerts : list Alert)
  : list (Event E) :=
  match alerts with
  | [] => []
  | alert :: alerts' => dispatch t n alert ++ range_alerts t (S n) alerts'
  end.

(** The outer loop, [for wh := range hookChan], over the messages the
    channel delivers before it is closed. [wh.Alerts] goes through the
    embedded pointer: a nil one ends the goroutine, and the process. *)
Fixpoint worker (t : Tmpl) (n : nat) (delivered : list WebhookMessage)
  : list (Event E) :=
  match delivered with
  | [] => []
  | wh :: delivered' =>
      match MsgData wh with
      | None => [NilDereference]
      | Some d =>
          range_alerts t n (Alerts d)
          ++ worker t (n + length (Alerts d)) delivered'
      end
  end.

(** *** Reading a trace *)

Definition captures (tr : list (Event E)) : list (Packet * KV) :=
  omap (fun ev => match ev with
                  | Capture _ p tags => Some (p, tags)
                  | _ => None
                  end) tr.

(** At most one submission in flight: every [Capture] finds none
    pending and is acknowledged, by its own [Await], before the next;
    nothing is pending at the end. *)
Fixpoint serialized (pending : option nat) (tr : list (Event E)) : bool :=
  match tr with
  | [] => match pending with None => true | Some _ => false end
  | Capture n _ _ :: tr' =>
      match pending with
      | None => serialized (Some n) tr'
      | Some _ => false
      end
  | Await n :: tr' =>
      match pending with
      | Some m => (n =? m)%nat && serialized None tr'
      | None => false
      end
  | _ :: tr' => serialized pending tr'
  end.

End Worker.

(** ** The webhook receiver: lines 105-119 *)

(** [*http.Request]: what routing and the handler can look at. *)
Record Request : Type := mkRequest {
  Method : string;
  Path : string;      (* r.URL.Path *)
  Body : string
}.

(** What a handler invocation does, in program order. The last two are
    the ways a handler can answer on its [http.ResponseWriter]. *)
Inductive HandlerAction (E : Type) : Type :=
| H_Stderr (format : string) (err : E)
| H_Send (wh : WebhookMessage)          (* hookChan <- &wh *)
| H_BodyClose                           (* the deferred r.Body.Close() *)
| H_WriteHeader (status : nat)
| H_Write (body : string).
Arguments H_Stderr {E} format err.
Arguments H_Send {E} wh.
Arguments H_BodyClose {E}.
Arguments H_WriteHeader {E} status.
Arguments H_Write {E} body.

(** *** Routing: [http.ServeMux] with the one registration of line 106 *)

Module Mux.

(** The pattern of [mux.HandleFunc("/", ...)]. *)
Definition pattern : string := "/".

Fixpoint last_char (s : string) : option ascii :=
  match s with
  | EmptyString => None
  | String c EmptyString => Some c
  | String _ s' => last_char s'
  end.

(** [pathMatch]: a pattern ending in a slash names a subtree. *)
Definition pathMatch (pattern path : string) : bool :=
  match last_char pattern with
  | None => false
  | Some c =>
      if Ascii.eqb c "/" then String.prefix pattern path
      else String.eqb pattern path
  end.

Fixpoint split_slash (s : string) (cur : list ascii) : list string :=
  match s with
  | EmptyString => [Template.string_rev_of cur]
  | String c s' =>
      if Ascii.eqb c "/" then Template.string_rev_of cur :: split_slash s' []
      else split_slash s' (c :: cur)
  end.

Definition clean_step (stack : list string) (seg : string) : list string :=
  if String.eqb seg "" || String.eqb seg "." then stack
  else if String.eqb seg ".." then removelast stack
  else stack ++ [seg].

(** [path.Clean] on a rooted path. *)
Definition Clean (p : string) : string :=
  "/" +:+ String.concat "/" (fold_left clean_step (split_slash p []) []).

Definition ends_with_slash (p : string) : bool :=
  match last_char p with
  | Some c => Ascii.eqb c "/"
  | None => false
  end.

(** [cleanPath]. *)
Definition cleanPath (p : string) : string :=
  match p with
  | EmptyString => "/"
  | String c _ =>
      let p := if Ascii.eqb c "/" then p else "/" +:+ p in
      let np := Clean p in
      if ends_with_slash p && negb (String.eqb np "/") then np +:+ "/" else np
  end.

(** [ServeMux.Handler]: whether the request reaches the registered
    handler; otherwise the mux answers itself (a redirect to the
    canonical path, or not found). *)
Definition routed (r : Request) : bool :=
  if String.eqb (Method r) "CONNECT" then pathMatch pattern (Path r)
  else String.eqb (cleanPath (Path r)) (Path r) && pathMatch pattern (Path r).

End Mux.

Section Receiver.

Context {JE : Type}.

(** [json.NewDecoder(r.Body).Decode(&wh)]. *)
Variable Decode : string -> JE + WebhookMessage.

(** The function literal of lines 106-119. *)
Definition handler (r : Request) : list (HandlerAction JE) :=
  match Decode (Body r) with
  | inl err => [H_Stderr ("Invalid webhook: %s" +:+ nl) err; H_BodyClose]
  | inr wh => [H_Send wh; H_BodyClose]
  end.

(** The server on one request: [None] when the mux answers itself. *)
Definition serve (r : Request) : option (list (HandlerAction JE)) :=
  if Mux.routed r then Some (handler r) else None.

Definition sends (acts : list (HandlerAction JE)) : list WebhookMessage :=
  omap (fun act => match act with H_Send wh => Some wh | _ => None end) acts.

Definition answers (acts : list (HandlerAction JE)) : list (HandlerAction JE) :=
  List.filter (fun act => match act with
                          | H_WriteHeader _ | H_Write _ => true
                          | _ => false
                          end) acts.

(** The messages a sequence of requests hands to the channel, when
    the requests are served one after the other. *)
Definition enqueued (rs : list Request) : list WebhookMessage :=
  flat_map (fun r => match serve r with
                     | Some acts => sends acts
                     | None => []
                     end) rs.

End Receiver.

(** ** Go channels *)

Module Chan.

Record t (A : Type) : Type := mk {
  cap : nat;          (* the capacity given to [make] *)
  buf : list A;       (* the elements queued in the buffer, oldest first *)
  closed : bool
}.
Arguments mk {A} cap buf closed.
Arguments cap {A} _.
Arguments buf {A} _.
Arguments closed {A} _.

Section Ops.
Context {A : Type}.

(** [make(chan A, n)]; [make(chan A)] is [make 0]. *)
Definition make (n : nat) : t A := mk n [] false.

(** [len(c)]: the number of elements queued in the buffer. *)
Definition len (c : t A) : nat := length (buf c).

(** [close(c)]. *)
Definition close (c : t A) : t A := mk (cap c) (buf c) true.

(** A send that finds room in the buffer. *)
Definition has_room (c : t A) : bool := (len c <? cap c)%nat.
Definition push (x : A) (c : t A) : t A := mk (cap c) (buf c ++ [x]) (closed c).

(** A receive that finds the buffer filled takes its oldest element. *)
Definition pop (c : t A) : t A := mk (cap c) (tail (buf c)) (closed c).
End Ops.

End Chan.

(** ** The running process: [run] from line 103 on, and [main]

    The goroutines of the process, each at a place of the source, and
    the channel between them. *)

(** [hookChan := make(chan *notify.WebhookMessage)], line 103. *)
Definition make_hookChan : Chan.t WebhookMessage := Chan.make 0.

(** Where the goroutine of line 134 stands in [worker]. *)
Inductive WorkerPC : Type :=
| AtRange                        (* receiving, line 157 *)
| Received (wh : WebhookMessage) (* [wh] taken, before line 158 reads wh.Alerts *)
| InAlerts (rest : list Alert)   (* in the inner loop, these alerts to go *)
| WorkerReturned.                (* the range over the closed channel ended *)

(** What [s.Shutdown(ctx)] can return other than nil. *)
Inductive ShutdownError : Type :=
| DeadlineExceeded               (* ctx, 10 seconds, ran out *)
| ListenerError.

(** Where the main goroutine stands. *)
Inductive MainPC : Type :=
| AwaitSignal                              (* [<-sigCh], line 138 *)
| InShutdown                               (* in [s.Shutdown(ctx)], line 143 *)
| Draining                                 (* at the loop test, line 148 *)
| RunReturned (err : option ShutdownError) (* [run] returned *)
| Exited (status : Z).                     (* the process is gone *)

Record State : Type := mkState {
  hookChan : Chan.t WebhookMessage;
  senders : list WebhookMessage;   (* handlers at line 118, with their message *)
  wk : WorkerPC;
  pc : MainPC;
  dispatched : list Alert          (* alerts submitted so far, in order *)
}.

Definition initial : State :=
  mkState make_hookChan [] AtRange AwaitSignal [].

Definition live (st : State) : Prop :=
  match pc st with Exited _ => False | _ => True end.

(** [main], lines 48-52: the status the process exits with. *)
Definition exit_status (err : option ShutdownError) : Z :=
  match err with
  | Some _ => 1
  | None => 0
  end.

(** Line 157: the worker has received [wh]. *)
Definition deliver (wh : WebhookMessage) (st : State) : State :=
  mkState (hookChan st) (senders st) (Received wh) (pc st) (dispatched st).

(** Line 158: the range over [wh.Alerts] dereferences the embedded
    pointer; the worker enters the inner loop, or panics, and a panic
    in a goroutine ends the process with status 2. *)
Definition enter_alerts (wh : WebhookMessage) (st : State) : State :=
  match MsgData wh with
  | Some d => mkState (hookChan st) (senders st) (InAlerts (Alerts d)) (pc st)
                      (dispatched st)
  | None => mkState (hookChan st) (senders st) (wk st) (Exited 2) (dispatched st)
  end.

(** Handlers can be running: until [Shutdown] has returned nil, which
    it does only once every handler has returned. *)
Definition handlers_may_run (p : MainPC) : Prop :=
  match p with
  | AwaitSignal | InShutdown | RunReturned (Some _) => True
  | _ => False
  end.

(** Lines 143-146: [Shutdown] has returned. *)
Definition after_shutdown (res : option ShutdownError) (st : State) : State :=
  match res with
  | Some e => mkState (hookChan st) (senders st) (wk st) (RunReturned (Some e))
                      (dispatched st)
  | None => mkState (hookChan st) (senders st) (wk st) Draining (dispatched st)
  end.

(** Lines 148-153: one evaluation of the loop test. Either the body
    sleeps and the test comes again, or the channel is closed and [run]
    returns nil. *)
Definition drain_poll (st : State) : State :=
  if (0 <? Chan.len (hookChan st))%nat then st
  else mkState (Chan.close (hookChan st)) (senders st) (wk st) (RunReturned None)
               (dispatched st).

Definition set_senders (l : list WebhookMessage) (st : State) : State :=
  mkState (hookChan st) l (wk st) (pc st) (dispatched st).

Definition set_chan (c : Chan.t WebhookMessage) (st : State) : State :=
  mkState c (senders st) (wk st) (pc st) (dispatched st).

Definition set_wk (w : WorkerPC) (st : State) : State :=
  mkState (hookChan st) (senders st) w (pc st) (dispatched st).

Definition set_pc (p : MainPC) (st : State) : State :=
  mkState (hookChan st) (senders st) (wk st) p (dispatched st).

(** One move of one goroutine. *)
Inductive step : State -> State -> Prop :=
| step_arrive st wh :
    (* a handler has decoded [wh] and reaches the send of line 118 *)
    handlers_may_run (pc st) ->
    step st (set_senders (senders st ++ [wh]) st)
| step_handoff st l1 wh l2 :
    (* nothing buffered, the worker is receiving: the value passes
       from the sender to the receiver *)
    live st ->
    Chan.closed (hookChan st) = false ->
    Chan.buf (hookChan st) = [] ->
    wk st = AtRange ->
    senders st = l1 ++ wh :: l2 ->
    step st (deliver wh (set_senders (l1 ++ l2) st))
| step_send_buffer st l1 wh l2 :
    (* room in the buffer: the send completes without a receiver *)
    live st ->
    Chan.closed (hookChan st) = false ->
    Chan.has_room (hookChan st) = true ->
    senders st = l1 ++ wh :: l2 ->
    step st (set_chan (Chan.push wh (hookChan st)) (set_senders (l1 ++ l2) st))
| step_send_closed st l1 wh l2 :
    (* send on a closed channel: the handler panics, and net/http
       recovers the panic of a handler; the message is gone *)
    live st ->
    Chan.closed (hookChan st) = true ->
    senders st = l1 ++ wh :: l2 ->
    step st (set_senders (l1 ++ l2) st)
| step_recv_buffer st wh b :
    live st ->
    wk st = AtRange ->
    Chan.buf (hookChan st) = wh :: b ->
    step st (deliver wh (set_chan (Chan.pop (hookChan st)) st))
| step_recv_closed st :
    (* closed and drained: the range loop ends *)
    live st ->
    wk st = AtRange ->
    Chan.buf (hookChan st) = [] ->
    Chan.closed (hookChan st) = true ->
    step st (set_wk WorkerReturned st)
| step_dispatch st a rest :
    (* one iteration of the inner loop, [dispatch] above *)
    live st ->
    wk st = InAlerts (a :: rest) ->
    step st (mkState (hookChan st) (senders st) (InAlerts rest) (pc st)
                     (dispatched st ++ [a]))
| step_next st :
    live st ->
    wk st = InAlerts [] ->
    step st (set_wk AtRange st)
| step_signal st :
    pc st = AwaitSignal ->
    step st (set_pc InShutdown st)
| step_enter st wh :
    (* line 158, after the receive of line 157 *)
    live st ->
    wk st = Received wh ->
    step st (enter_alerts wh st)
| step_shutdown_nil st :
    (* [Shutdown] returns nil: no handler is left, none at its send *)
    pc st = InShutdown ->
    senders st = [] ->
    step st (after_shutdown None st)
| step_shutdown_error st err :
    (* [Shutdown] gives up, with handlers possibly still running *)
    pc st = InShutdown ->
    step st (after_shutdown (Some err) st)
| step_poll st :
    pc st = Draining ->
    step st (drain_poll st)
| step_exit st err :
    pc st = RunReturned err ->
    step st (set_pc (Exited (exit_status err)) st).

Definition reachable (st : State) : Prop := rtc step initial st.

(** A handler's send can complete in [st]. *)
Definition send_enabled (st : State) : bool :=
  negb (Chan.closed (hookChan st))
  && (Chan.has_room (hookChan st)
      || (match wk st with AtRange => true | _ => false end
          && match Chan.buf (hookChan st) with [] => true | _ => false end)).

(** The alerts the worker still holds. *)
Definition pending (w : WorkerPC) : list Alert :=
  match w with
  | InAlerts rest => rest
  | Received wh =>
      match MsgData wh with
      | Some d => Alerts d
      | None => []
      end
  | _ => []
  end.

(** ** Start-up: [main] and lines 55-101 of [run] *)

(** The package variables of lines 24-27, as the source initialises
    them. *)
Definition VERSION : string := "latest".
Definition COMMIT : string := "HEAD".

(** [version], lines 191-193: what [fmt.Printf] writes. *)
Definition version : string :=
  "Version: " +:+ VERSION +:+ " (" +:+ COMMIT +:+ ")" +:+ nl.

(** The flags [main] declares, lines 40-43, with the values cobra has
    read for them. [main] declares each with the type [run] asks for,
    so the lookups of lines 56-79 return no error. *)
Record Flags : Type := mkFlags {
  flag_version : bool;
  flag_dsn : string;
  flag_template : string;
  flag_addr : string
}.

(** The values of the flags when the command line names none. *)
Definition default_flags : Flags :=
  {| flag_version := false;
     flag_dsn := "";
     flag_template := "";
     flag_addr := "0.0.0.0:9096" |}.

(** The errors [run] returns before it listens. *)
Inductive StartError (RE PE : Type) : Type :=
| DSNRequired                  (* errors.New("Sentry DSN required") *)
| ReadError (err : RE)         (* from ioutil.ReadFile *)
| ParseError (err : PE).       (* from t.Parse *)
Arguments DSNRequired {RE PE}.
Arguments ReadError {RE PE} err.
Arguments ParseError {RE PE} err.

(** How lines 55-101 end. *)
Inductive Started (Tmpl RE PE : Type) : Type :=
| PrintedVersion (out : string)              (* version(); os.Exit(0) *)
| Failed (err : StartError RE PE)            (* run returns err *)
| Serving (dsn : string) (t : Tmpl) (addr : string).
    (* raven.SetDSN(dsn) done, t parsed: on to line 103 *)
Arguments PrintedVersion {Tmpl RE PE} out.
Arguments Failed {Tmpl RE PE} err.
Arguments Serving {Tmpl RE PE} dsn t addr.

Section Startup.

Context {Tmpl RE PE : Type}.

(** [ioutil.ReadFile]. *)
Variable ReadFile : string -> RE + string.

(** [template.New("").Option("missingkey=zero")], [Funcs], [Parse]. *)
Variable ParseTemplate : string -> PE + Tmpl.

(** Lines 86-94: the template text. *)
Definition read_template (tmplPath : string) : RE + string :=
  if decide (tmplPath = "") then inr defaultTemplate
  else ReadFile tmplPath.

(** Lines 55-101. *)
Definition start (flags : Flags) : Started Tmpl RE PE :=
  if flag_version flags then PrintedVersion version
  else if decide (flag_dsn flags = "") then Failed DSNRequired
  else
    match read_template (flag_template flags) with
    | inl err => Failed (ReadError err)
    | inr tmpl =>
        match ParseTemplate tmpl with
        | inl err => Failed (ParseError err)
        | inr t => Serving (flag_dsn flags) t (flag_addr flags)
        end
    end.

(** The status the process exits with during start-up, if it does:
    [os.Exit(0)] of line 63, or [main]'s [os.Exit(1)] of line 51 on the
    error [run] returned. *)
Definition start_exit (o : Started Tmpl RE PE) : option Z :=
  match o with
  | PrintedVersion _ => Some 0%Z
  | Failed _ => Some 1%Z
  | Serving _ _ _ => None
  end.

End Startup.

(** * Properties *)

(** ** The worker *)

Section WorkerFacts.

Context {Tmpl E : Type}.
Variable Execute : Tmpl -> Alert -> string * option E.
Variable Now : nat -> Time.
Variable EventID : nat -> Packet -> string.


Lemma captures_app (tr1 tr2 : list (Event E)) :
  captures (tr1 ++ tr2) = captures tr1 ++ captures tr2.
Proof. apply omap_app. Qed.

(** Events that are neither a submission nor an acknowledgement. *)
Definition quiet (ev : Event E) : bool :=
  match ev with
  | Capture _ _ _ | Await _ => false
  | _ => true
  end.

Lemma serialized_quiet pending (tr1 tr2 : list (Event E)) :
  forallb quiet tr1 = true ->
  serialized pending (tr1 ++ tr2) = serialized pending tr2.
Proof.
  induction tr1 as [|ev tr1 IH]; [done|].
  simpl. intros [Hev Htr]%andb_prop.
  destruct ev; simpl in *; try discriminate; auto.
Qed.

Lemma render_quiet t a : forallb quiet (render Execute t a).1 = true.
Proof.
  unfold render. destruct (Execute t a) as [buf [e|]]; reflexivity.
Qed.

Lemma dispatch_unfold t n a :
  dispatch Execute Now EventID t n a =
  (render Execute t a).1 ++
  [Capture n (build_packet (Now n) (render Execute t a).2 a) (Labels a);
   Await n;
   Log_Printf ("event_id:%s alert_name:%s" +:+ nl)
              [EventID n (build_packet (Now n) (render Execute t a).2 a);
               index (Labels a) "alertname"]].
Proof.
  unfold dispatch. destruct (render Execute t a) as [logged msg]. reflexivity.
Qed.

Lemma dispatch_captures t n a :
  captures (dispatch Execute Now EventID t n a)
  = [(build_packet (Now n) (render Execute t a).2 a, Labels a)].
Proof.
  rewrite dispatch_unfold, captures_app.
  assert (captures (render Execute t a).1 = []) as ->; [|reflexivity].
  unfold render. destruct (Execute t a) as [buf [e|]]; reflexivity.
Qed.

Lemma dispatch_serialized t n a tr :
  serialized None (dispatch Execute Now EventID t n a ++ tr) = serialized None tr.
Proof.
  rewrite dispatch_unfold, <- app_assoc.
  rewrite serialized_quiet by apply render_quiet.
  simpl. rewrite Nat.eqb_refl. reflexivity.
Qed.

Lemma range_alerts_captures t n alerts :
  captures (range_alerts Execute Now EventID t n alerts)
  = imap (fun i a => (build_packet (Now (n + i)) (render Execute t a).2 a, Labels a))
         alerts.
Proof.
  revert n. induction alerts as [|a alerts IH]; intros n; [done|].
  simpl. rewrite captures_app, dispatch_captures, IH, Nat.add_0_r. simpl.
  f_equal. apply imap_ext. intros i x _. simpl.
  by rewrite Nat.add_succ_r.
Qed.

Lemma range_alerts_serialized t n alerts tr :
  serialized None (range_alerts Execute Now EventID t n alerts ++ tr) = serialized None tr.
Proof.
  revert n. induction alerts as [|a alerts IH]; intros n; [done|].
  simpl. rewrite <- app_assoc, dispatch_serialized. apply IH.
Qed.

(** C1. A message that carries N alerts, once the worker has received
    it, leads to exactly N calls of [raven.Capture], one per alert and
    in the order of the alerts, each acknowledged before the next is
    made; the worker then goes on with the following message. *)
Theorem worker_dispatches_each_alert_in_order t n wh d delivered :
  MsgData wh = Some d ->
  exists block,
    worker Execute Now EventID t n (wh :: delivered)
    = block ++ worker Execute Now EventID t (n + length (Alerts d)) delivered
    /\ captures block
       = imap (fun i a =>
                 (build_packet (Now (n + i)) (render Execute t a).2 a, Labels a))
              (Alerts d)
    /\ length (captures block) = length (Alerts d)
    /\ serialized None block = true.
Proof.
  intros Hd. exists (range_alerts Execute Now EventID t n (Alerts d)).
  split; [simpl; by rewrite Hd|].
  split; [apply range_alerts_captures|].
  split; [by rewrite range_alerts_captures, length_imap|].
  rewrite <- (app_nil_r (range_alerts Execute Now EventID t n (Alerts d))).
  apply range_alerts_serialized.
Qed.

(** C3. When the template fails on an alert, the failure is written to
    standard error, the alert is submitted all the same, the message of
    the packet submitted being its alertname label when that label is
    present and not empty and the literal fallback otherwise, and the
    loop goes on to the next alert. *)
Theorem render_failure_falls_back t n alert buf e alerts :
  Execute t alert = (buf, Some e) ->
  let msg := match Labels alert !! "alertname" with
             | Some v => if decide (v = "") then "fallback" else v
             | None => "fallback"
             end in
  let packet := build_packet (Now n) msg alert in
  range_alerts Execute Now EventID t n (alert :: alerts)
  = [Fprintf_Stderr ("Invalid template: %s" +:+ nl) e;
     Capture n packet (Labels alert);
     Await n;
     Log_Printf ("event_id:%s alert_name:%s" +:+ nl)
                [EventID n packet; index (Labels alert) "alertname"]]
    ++ range_alerts Execute Now EventID t (S n) alerts
  /\ Message packet = msg
  /\ map (fun pt => Message pt.1)
         (captures (dispatch Execute Now EventID t n alert)) = [msg].
Proof.
  intros Hexec msg packet.
  assert ((render Execute t alert).2 = msg) as Hmsg.
  { unfold render. rewrite Hexec. simpl.
    unfold msg, index. destruct (Labels alert !! "alertname") as [v|].
    - reflexivity.
    - by destruct (decide ("" = "")). }
  split; [|split; [reflexivity|by rewrite dispatch_captures, Hmsg]].
  simpl. f_equal.
  rewrite dispatch_unfold. unfold render. rewrite Hexec. simpl.
  assert ((if decide (index (Labels alert) "alertname" = "")
           then "fallback" else index (Labels alert) "alertname") = msg) as ->.
  { unfold msg, index. destruct (Labels alert !! "alertname") as [v|].
    - reflexivity.
    - by destruct (decide ("" = "")). }
  reflexivity.
Qed.

End WorkerFacts.

(** ** The template engine *)

Lemma append_assoc (s1 s2 s3 : string) : (s1 +:+ s2) +:+ s3 = s1 +:+ (s2 +:+ s3).
Proof.
  induction s1 as [|c s1 IH]; [reflexivity|].
  change (String c ((s1 +:+ s2) +:+ s3) = String c (s1 +:+ s2 +:+ s3)).
  by rewrite IH.
Qed.


(** The alert of the scenario: PodDown on prod/web-1. *)
Definition PodDown (T0 T1 : Time) : Alert :=
  {| Labels := <["alertname" := "PodDown"]>
                 (<["namespace" := "prod"]> (<["pod_name" := "web-1"]> ∅));
     Annotations := <["message" := "pod unresponsive"]> ∅;
     StartsAt := T0;
     EndsAt := T1 |}.

(** An alert whose name holds characters HTML gives a meaning to. *)
Definition Tagged : Alert :=
  {| Labels := <["alertname" := "<b>disk & swap</b>"]> ∅;
     Annotations := ∅;
     StartsAt := 0%Z;
     EndsAt := 0%Z |}.

Section TemplateFacts.

Variable KV_method : string -> option (KV -> list string -> Template.ExecError + string).
Variable no_value : string.

Abbreviation Execute := (Template.Execute KV_method no_value).













(** C9. The engine is html/template: on an alert whose name holds [<],
    [>] and [&], the message rendered from the default template carries
    the HTML entities of these characters, and so is not the text that
    substituting the alert's values into the template gives, which is
    what the same template yields before the escaping pass. *)
Theorem html_engine_escapes_values :
  exists t plain out,
    compile defaultTemplate = Some t
    /\ Template.Parse Template.MapZeroValue defaultTemplate = Some plain
    /\ Execute t Tagged = (out, None)
    /\ out = "&lt;b&gt;disk &amp; swap&lt;/b&gt; - /" +:+ nl
    /\ Execute plain Tagged = ("<b>disk & swap</b> - /" +:+ nl, None)
    /\ out <> "<b>disk & swap</b> - /" +:+ nl.
Proof.
  eexists _, _, _.
  split; [vm_compute; reflexivity|].
  split; [vm_compute; reflexivity|].
  split; [vm_compute; reflexivity|].
  split; [reflexivity|].
  split; [vm_compute; reflexivity|].
  discriminate.
Qed.

End TemplateFacts.

(** ** The scenario of the default template *)

(** C2. With no template file given, the PodDown alert of prod/web-1
    renders, under the default template, as "PodDown - prod/web-1", a newline, "pod unresponsive";
    the packet submitted for it carries that message, the fingerprint
    PodDown, prod, web-1 and the server name prod/web-1. *)
Theorem default_template_PodDown
    (KV_method : string -> option (KV -> list string -> Template.ExecError + string))
    (no_value : string) (Now : nat -> Time) (EventID : nat -> Packet -> string)
    (n : nat) (T0 T1 : Time) :
  exists src t packet,
    template_source "" None = Some src
    /\ compile src = Some t
    /\ Template.Execute KV_method no_value t (PodDown T0 T1)
       = ("PodDown - prod/web-1" +:+ nl +:+ "pod unresponsive", None)
    /\ captures (dispatch (Template.Execute KV_method no_value) Now EventID
                          t n (PodDown T0 T1))
       = [(packet, Labels (PodDown T0 T1))]
    /\ Message packet = "PodDown - prod/web-1" +:+ nl +:+ "pod unresponsive"
    /\ Fingerprint packet = ["PodDown"; "prod"; "web-1"]
    /\ ServerName packet = "prod/web-1".
Proof.
  eexists _, _, _.
  split; [reflexivity|].
  split; [vm_compute; reflexivity|].
  split; [vm_compute; reflexivity|].
  split; [rewrite dispatch_captures; reflexivity|].
  split; [vm_compute; reflexivity|].
  split; vm_compute; reflexivity.
Qed.

(** ** Witnesses for the worker and the engine *)

(** No method stands in the way of a key. *)
Definition no_methods : string -> option (KV -> list string -> Template.ExecError + string) :=
  fun _ => None.

(** A template that asks for a field of a string. *)
Definition field_of_string : Template.Template :=
  {| Template.missingKey := Template.MapZeroValue;
     Template.tree := [Template.Action Template.RLabels "alertname" ["x"]
                                       [Template.HTMLEscaper]] |}.

(** An alert without labels or annotations. *)
Definition Bare : Alert :=
  {| Labels := ∅; Annotations := ∅; StartsAt := 0%Z; EndsAt := 0%Z |}.

Lemma worker_dispatches_each_alert_in_order_witness :
  exists block,
    worker (Template.Execute no_methods "") (fun _ => 0%Z) (fun _ _ => "id")
           field_of_string 0
           [mkWebhookMessage (Some (mkData [PodDown 1%Z 0%Z; Bare]))]
    = block ++ worker (Template.Execute no_methods "") (fun _ => 0%Z)
                      (fun _ _ => "id") field_of_string 2 []
    /\ captures block
       = imap (fun i a =>
                 (build_packet 0%Z
                    (render (Template.Execute no_methods "") field_of_string a).2 a,
                  Labels a))
              [PodDown 1%Z 0%Z; Bare]
    /\ length (captures block) = 2
    /\ serialized None block = true.
Proof.
  apply (worker_dispatches_each_alert_in_order
           (Template.Execute no_methods "") (fun _ => 0%Z) (fun _ _ => "id")
           field_of_string 0
           (mkWebhookMessage (Some (mkData [PodDown 1%Z 0%Z; Bare])))
           (mkData [PodDown 1%Z 0%Z; Bare]) []).
  reflexivity.
Defined.

Lemma render_failure_falls_back_witness :
  range_alerts (Template.Execute no_methods "") (fun _ => 0%Z) (fun _ _ => "id")
               field_of_string 0 [PodDown 1%Z 0%Z; Bare]
  = [Fprintf_Stderr ("Invalid template: %s" +:+ nl)
                    (Template.CantEvaluateField "x" "string");
     Capture 0 (build_packet 0%Z "PodDown" (PodDown 1%Z 0%Z)) (Labels (PodDown 1%Z 0%Z));
     Await 0;
     Log_Printf ("event_id:%s alert_name:%s" +:+ nl) ["id"; "PodDown"]]
    ++ range_alerts (Template.Execute no_methods "") (fun _ => 0%Z)
                    (fun _ _ => "id") field_of_string 1 [Bare]
  /\ Message (build_packet 0%Z "PodDown" (PodDown 1%Z 0%Z)) = "PodDown"
  /\ map (fun pt => Message pt.1)
         (captures (dispatch (Template.Execute no_methods "") (fun _ => 0%Z)
                             (fun _ _ => "id") field_of_string 0 (PodDown 1%Z 0%Z)))
     = ["PodDown"].
Proof.
  apply (render_failure_falls_back
           (Template.Execute no_methods "") (fun _ => 0%Z) (fun _ _ => "id")
           field_of_string 0 (PodDown 1%Z 0%Z) "" (Template.CantEvaluateField "x" "string")
           [Bare]).
  vm_compute. reflexivity.
Defined.

(** The default template as [compile] leaves it. *)
Definition default_compiled : Template.Template :=
  {| Template.missingKey := Template.MapZeroValue;
     Template.tree :=
       [Template.Action Template.RLabels "alertname" [] [Template.HTMLEscaper];
        Template.Text " - ";
        Template.Action Template.RLabels "namespace" [] [Template.HTMLEscaper];
        Template.Text "/";
        Template.Action Template.RLabels "pod_name" [] [Template.HTMLEscaper];
        Template.Text nl;
        Template.Action Template.RAnnotations "message" [] [Template.HTMLEscaper]] |}.




(** ** The receiver *)

Section ReceiverFacts.

Context {JE Tmpl E : Type}.
Variable Decode : string -> JE + WebhookMessage.
Variable Execute : Tmpl -> Alert -> string * option E.
Variable Now : nat -> Time.
Variable EventID : nat -> Packet -> string.

Lemma enqueued_app (rs1 rs2 : list Request) :
  enqueued Decode (rs1 ++ rs2) = enqueued Decode rs1 ++ enqueued Decode rs2.
Proof. apply flat_map_app. Qed.

Lemma enqueued_undecodable r err :
  Decode (Body r) = inl err -> enqueued Decode [r] = [].
Proof.
  intros Herr. unfold enqueued, serve, handler. simpl.
  destruct (Mux.routed r); [|reflexivity]. by rewrite Herr.
Qed.

(** C5. A request whose body does not decode makes the handler write
    the diagnostic to standard error and return: nothing is sent to the
    channel, nothing is written to the response, the worker submits
    nothing for it, and the requests around it are enqueued and
    dispatched as if it had not come. *)
Theorem malformed_body_is_dropped r err pre post t n :
  Decode (Body r) = inl err ->
  handler Decode r = [H_Stderr ("Invalid webhook: %s" +:+ nl) err; H_BodyClose]
  /\ sends (handler Decode r) = []
  /\ answers (handler Decode r) = []
  /\ enqueued Decode [r] = []
  /\ captures (worker Execute Now EventID t n (enqueued Decode [r])) = []
  /\ enqueued Decode (pre ++ r :: post) = enqueued Decode (pre ++ post)
  /\ worker Execute Now EventID t n (enqueued Decode (pre ++ r :: post))
     = worker Execute Now EventID t n (enqueued Decode (pre ++ post)).
Proof.
  intros Herr.
  assert (enqueued Decode (pre ++ r :: post) = enqueued Decode (pre ++ post)) as Hskip.
  { change (r :: post) with ([r] ++ post).
    by rewrite !enqueued_app, (enqueued_undecodable r err Herr). }
  unfold handler. rewrite Herr, Hskip.
  rewrite (enqueued_undecodable r err) by (by rewrite Herr).
  repeat split; reflexivity.
Qed.

Lemma prefix_slash s : String.prefix "/" ("/" +:+ s) = true.
Proof. cbv [String.append]. cbn. by destruct s. Qed.

Lemma cleanPath_rooted p : String.prefix "/" (Mux.cleanPath p) = true.
Proof.
  destruct p as [|c p]; [reflexivity|].
  unfold Mux.cleanPath, Mux.Clean.
  destruct (_ && _); [rewrite append_assoc|]; apply prefix_slash.
Qed.

Lemma canonical_is_routed r :
  Mux.cleanPath (Path r) = Path r -> Mux.routed r = true.
Proof.
  intros Hcanon. unfold Mux.routed.
  assert (Mux.pathMatch Mux.pattern (Path r) = true) as ->.
  { unfold Mux.pathMatch, Mux.pattern. simpl.
    rewrite <- Hcanon. apply cleanPath_rooted. }
  rewrite Hcanon, String.eqb_refl. by destruct (String.eqb _ _).
Qed.

(** C8, as the code has it. The handler stands on the pattern [/],
    which matches every path, and it never reads the method: a request
    of any method on any path in canonical form (the mux redirects the
    others) reaches the handler, and its message is enqueued exactly
    when its body decodes. *)
Theorem every_method_and_path_is_served r :
  Mux.cleanPath (Path r) = Path r ->
  serve Decode r = Some (handler Decode r)
  /\ enqueued Decode [r] = match Decode (Body r) with
                           | inr wh => [wh]
                           | inl _ => []
                           end.
Proof.
  intros Hroute%canonical_is_routed.
  unfold enqueued, serve, handler. simpl. rewrite Hroute.
  split; [reflexivity|]. by destruct (Decode (Body r)).
Qed.

(** C8 as the specification words it: a message is enqueued only for a
    POST on the one registered path. *)
Definition only_POST_on_one_path : Prop :=
  forall r, enqueued Decode [r] <> [] ->
            Method r = "POST" /\ Path r = Mux.pattern.

End ReceiverFacts.

(** A decoder in a run where the body at hand decodes to [wh]. *)
Definition decodes_to (wh : WebhookMessage) : string -> unit + WebhookMessage :=
  fun _ => inr wh.

(** A decoder in a run where the body at hand is not JSON. *)
Definition rejects : string -> unit + WebhookMessage :=
  fun _ => inl tt.

Definition PodDown_message : WebhookMessage :=
  mkWebhookMessage (Some (mkData [PodDown 1%Z 0%Z])).

(** A GET on another path, with a body that decodes, is enqueued. *)
Lemma GET_elsewhere_is_enqueued :
  ~ only_POST_on_one_path (decodes_to PodDown_message).
Proof.
  intros Hclaim.
  destruct (Hclaim (mkRequest "GET" "/metrics" "body")) as [Hmethod _].
  - vm_compute. discriminate.
  - discriminate Hmethod.
Qed.

Lemma malformed_body_is_dropped_witness :
  handler rejects (mkRequest "POST" "/" "{")
  = [H_Stderr ("Invalid webhook: %s" +:+ nl) tt; H_BodyClose]
  /\ sends (handler rejects (mkRequest "POST" "/" "{")) = []
  /\ answers (handler rejects (mkRequest "POST" "/" "{")) = []
  /\ enqueued rejects [mkRequest "POST" "/" "{"] = []
  /\ captures (worker (Template.Execute no_methods "") (fun _ => 0%Z)
                      (fun _ _ => "id") default_compiled 0
                      (enqueued rejects [mkRequest "POST" "/" "{"])) = []
  /\ enqueued rejects ([] ++ mkRequest "POST" "/" "{" :: [])
     = enqueued rejects ([] ++ [])
  /\ worker (Template.Execute no_methods "") (fun _ => 0%Z) (fun _ _ => "id")
            default_compiled 0
            (enqueued rejects ([] ++ mkRequest "POST" "/" "{" :: []))
     = worker (Template.Execute no_methods "") (fun _ => 0%Z) (fun _ _ => "id")
              default_compiled 0 (enqueued rejects ([] ++ [])).
Proof.
  apply (malformed_body_is_dropped rejects (Template.Execute no_methods "")
           (fun _ => 0%Z) (fun _ _ => "id")
           (mkRequest "POST" "/" "{") tt [] [] default_compiled 0).
  reflexivity.
Defined.

Lemma every_method_and_path_is_served_witness :
  serve (decodes_to PodDown_message) (mkRequest "GET" "/metrics" "body")
  = Some (handler (decodes_to PodDown_message) (mkRequest "GET" "/metrics" "body"))
  /\ enqueued (decodes_to PodDown_message) [mkRequest "GET" "/metrics" "body"]
     = [PodDown_message].
Proof.
  apply (every_method_and_path_is_served (decodes_to PodDown_message)
           (mkRequest "GET" "/metrics" "body")).
  vm_compute. reflexivity.
Defined.

(** ** The running process *)

(** What the main goroutine's place says about the channel. *)
Definition closed_at (p : MainPC) (c : bool) : Prop :=
  match p with
  | RunReturned None => c = true
  | Exited s => (s = 0%Z -> c = true) /\ (s = 1%Z -> c = false)
  | _ => c = false
  end.

(** The channel of line 103 has no buffer, so holds nothing; it is
    closed only once [run] has returned nil; and from the moment
    [Shutdown] has returned nil no handler stands at its send. *)
Definition inv (st : State) : Prop :=
  Chan.cap (hookChan st) = 0
  /\ Chan.buf (hookChan st) = []
  /\ closed_at (pc st) (Chan.closed (hookChan st))
  /\ (Chan.closed (hookChan st) = true \/ pc st = Draining -> senders st = []).

Lemma inv_initial : inv initial.
Proof. repeat split; try done; by intros [|]. Qed.

Lemma deliver_chan wh st : hookChan (deliver wh st) = hookChan st.
Proof. reflexivity. Qed.

Lemma enter_alerts_chan wh st : hookChan (enter_alerts wh st) = hookChan st.
Proof. unfold enter_alerts. by destruct (MsgData wh). Qed.

Lemma enter_alerts_senders wh st : senders (enter_alerts wh st) = senders st.
Proof. unfold enter_alerts. by destruct (MsgData wh). Qed.

Lemma enter_alerts_dispatched wh st :
  dispatched (enter_alerts wh st) = dispatched st.
Proof. unfold enter_alerts. by destruct (MsgData wh). Qed.

Lemma no_room st : inv st -> Chan.has_room (hookChan st) = false.
Proof.
  intros (Hcap & Hbuf & _). unfold Chan.has_room, Chan.len.
  by rewrite Hcap, Hbuf.
Qed.

(** The cases of a step, with the same names everywhere. *)
Ltac step_cases Hstep :=
  destruct Hstep as
    [st wh Hrun|st l1 wh l2 Hl Hc Hb Hw Hs|st l1 wh l2 Hl Hc Hr Hs
    |st l1 wh l2 Hl Hc Hs|st wh b Hl Hw Hb|st Hl Hw Hb Hc
    |st a rest Hl Hw|st Hl Hw|st Hp|st wh Hl Hw|st Hp Hs|st err Hp
    |st Hp|st err Hp].

Lemma handlers_run_open st :
  inv st -> handlers_may_run (pc st) ->
  Chan.closed (hookChan st) = false /\ pc st <> Draining.
Proof.
  intros (_ & _ & Hpc & _) Hrun.
  destruct (pc st) as [| | |[e|]|s]; simpl in *; try done.
Qed.

Lemma inv_step st st' : inv st -> step st st' -> inv st'.
Proof.
  intros Hinv Hstep. pose proof (no_room st Hinv) as Hroom.
  pose proof (handlers_run_open st Hinv) as Hopen.
  destruct Hinv as (Hcap & Hbuf & Hpc & Hsend).
  step_cases Hstep; unfold inv;
    rewrite ?deliver_chan, ?enter_alerts_chan, ?enter_alerts_senders;
    simpl; try congruence.
  - (* a handler arrives *)
    destruct (Hopen Hrun) as [Hc Hd].
    repeat split; try done. intros [?|?]; congruence.
  - (* handoff *)
    repeat split; try done. intros Hcd. apply Hsend in Hcd.
    rewrite Hs in Hcd. by destruct l1.
  - (* send on the closed channel *)
    repeat split; try done. intros _. rewrite Hsend in Hs by auto.
    by destruct l1.
  - (* the range loop ends *) done.
  - (* one alert *) done.
  - (* the inner loop ends *) done.
  - (* signal *)
    rewrite Hp in Hpc. repeat split; try done. intros [?|?]; congruence.
  - (* line 158 *)
    repeat split; try done.
    + unfold enter_alerts. destruct (MsgData wh); simpl; [done|].
      split; intros [=].
    + intros [Hc|Hd]; [auto|].
      unfold enter_alerts in Hd. destruct (MsgData wh); simpl in Hd; [auto|done].
  - (* Shutdown returns nil *)
    rewrite Hp in Hpc. done.
  - (* Shutdown returns an error *)
    rewrite Hp in Hpc. repeat split; try done. intros [?|?]; congruence.
  - (* the loop test *)
    unfold drain_poll, Chan.len. rewrite Hbuf. simpl.
    repeat split; try done. auto.
  - (* exit *)
    rewrite Hp in Hpc. repeat split; try done.
    + destruct err; simpl; [discriminate|done].
    + destruct err; simpl; [done|]. intros [=].
    + intros [Hc|?]; [auto|done].
Qed.

Lemma inv_rtc st st' : inv st -> rtc step st st' -> inv st'.
Proof. intros Hinv Hrtc. induction Hrtc; eauto using inv_step. Qed.

Lemma inv_reachable st : reachable st -> inv st.
Proof. apply inv_rtc, inv_initial. Qed.








(** C7 as the specification words it: a handler that stands at its send
    with a decoded message, the channel open, sees the send complete,
    whatever the worker is doing. *)
Definition enqueue_never_blocks : Prop :=
  forall st l1 wh l2,
    reachable st -> live st -> Chan.closed (hookChan st) = false ->
    senders st = l1 ++ wh :: l2 ->
    exists st', step st st' /\ senders st' = l1 ++ l2.

(** C7, as the code has it. The channel has no buffer: a send completes
    only by passing the message to the worker while the worker stands
    at its receive; while the worker is elsewhere, no step of the
    process takes a handler away from its send. *)
Theorem unbuffered_send_waits_for_worker st l1 wh l2 :
  reachable st -> live st -> Chan.closed (hookChan st) = false ->
  senders st = l1 ++ wh :: l2 ->
  Chan.len (hookChan st) = 0
  /\ Chan.has_room (hookChan st) = false
  /\ (wk st = AtRange -> step st (deliver wh (set_senders (l1 ++ l2) st)))
  /\ (wk st <> AtRange ->
      send_enabled st = false
      /\ forall st', step st st' -> length (senders st) <= length (senders st')).
Proof.
  intros Hinv%inv_reachable Hlive Hopen Hsenders.
  pose proof (no_room st Hinv) as Hroom.
  destruct Hinv as (Hcap & Hbuf & Hpc & _).
  split; [unfold Chan.len; by rewrite Hbuf|].
  split; [done|].
  split; [intros Hwk; by apply step_handoff|].
  intros Hwk. split.
  { unfold send_enabled. rewrite Hroom, Hopen. by destruct (wk st). }
  intros st' Hstep. clear Hsenders l1 wh l2.
  step_cases Hstep; rewrite ?enter_alerts_senders;
    try congruence; simpl; try lia.
  - rewrite length_app. simpl. lia.
  - unfold drain_poll. by destruct (0 <? _)%nat.
Qed.

(** ** Runs of the process *)

(** A second message, for a handler that finds the worker at work. *)
Definition Bare_message : WebhookMessage :=
  mkWebhookMessage (Some (mkData [Bare])).

(** The worker has received the PodDown message and has not yet
    submitted its alert; a second handler stands at its send. *)
Definition st_busy : State :=
  mkState make_hookChan [Bare_message] (InAlerts [PodDown 1%Z 0%Z]) AwaitSignal [].

(** The worker holds the alert of the PodDown message, no handler is
    left, and the signal has come. *)
Definition st_shutting : State :=
  mkState make_hookChan [] (InAlerts [PodDown 1%Z 0%Z]) InShutdown [].

(** The same, [Shutdown] returned nil. *)
Definition st_draining : State :=
  mkState make_hookChan [] (InAlerts [PodDown 1%Z 0%Z]) Draining [].

(** After the close, the worker has submitted the alert it held. *)
Definition st_after : State :=
  mkState (Chan.close make_hookChan) [] (InAlerts []) (RunReturned None)
          [PodDown 1%Z 0%Z].

Lemma st_holding_reachable :
  reachable (mkState make_hookChan [] (InAlerts [PodDown 1%Z 0%Z]) AwaitSignal []).
Proof.
  unfold reachable.
  eapply rtc_l; [exact (step_arrive initial PodDown_message I)|].
  eapply rtc_l.
  { apply (step_handoff _ [] PodDown_message []); done. }
  apply rtc_once.
  exact (step_enter (mkState make_hookChan [] (Received PodDown_message)
                             AwaitSignal []) PodDown_message I eq_refl).
Qed.

Lemma st_busy_reachable : reachable st_busy.
Proof.
  eapply rtc_r; [exact st_holding_reachable|].
  exact (step_arrive (mkState make_hookChan [] (InAlerts [PodDown 1%Z 0%Z])
                              AwaitSignal []) Bare_message I).
Qed.

Lemma st_shutting_reachable : reachable st_shutting.
Proof.
  eapply rtc_r; [exact st_holding_reachable|].
  exact (step_signal (mkState make_hookChan [] (InAlerts [PodDown 1%Z 0%Z])
                              AwaitSignal []) eq_refl).
Qed.

Lemma st_draining_reachable : reachable st_draining.
Proof.
  eapply rtc_r; [exact st_shutting_reachable|].
  exact (step_shutdown_nil st_shutting eq_refl eq_refl).
Qed.

Lemma st_after_run : rtc step (drain_poll st_draining) st_after.
Proof.
  apply rtc_once.
  exact (step_dispatch (drain_poll st_draining) (PodDown 1%Z 0%Z) [] I eq_refl).
Qed.

(** With the worker at work, the second handler cannot complete its
    send. *)
Lemma busy_worker_blocks_the_send : ~ enqueue_never_blocks.
Proof.
  intros Hclaim.
  destruct (Hclaim st_busy [] Bare_message [] st_busy_reachable I eq_refl eq_refl)
    as (st' & Hstep & Hsent).
  inversion Hstep; subst; simpl in *; discriminate.
Qed.



Lemma unbuffered_send_waits_for_worker_witness :
  Chan.len (hookChan st_busy) = 0
  /\ Chan.has_room (hookChan st_busy) = false
  /\ send_enabled st_busy = false
  /\ forall st', step st_busy st' -> length (senders st_busy) <= length (senders st').
Proof.
  destruct (unbuffered_send_waits_for_worker st_busy [] Bare_message []
              st_busy_reachable I eq_refl eq_refl)
    as (Hlen & Hroom & _ & Hblocked).
  destruct Hblocked as [Hoff Hstay]; [discriminate|].
  repeat split; assumption.
Defined.


(** * Further properties *)

(** ** The worker over all that the channel delivers *)

(** The alerts of a message; none behind a nil pointer. *)
Definition message_alerts (wh : WebhookMessage) : list Alert :=
  match MsgData wh with
  | Some d => Alerts d
  | None => []
  end.

Definition has_data (wh : WebhookMessage) : Prop := is_Some (MsgData wh).

Section WorkerLoop.

Context {Tmpl E : Type}.
Variable Execute : Tmpl -> Alert -> string * option E.
Variable Now : nat -> Time.
Variable EventID : nat -> Packet -> string.

(** The arguments of the [log.Printf] calls of a trace. *)
Definition logs (tr : list (Event E)) : list (list string) :=
  omap (fun ev => match ev with
                  | Log_Printf _ args => Some args
                  | _ => None
                  end) tr.

(** The packet the worker builds for [a] as its [i]-th alert. *)
Definition packet_for (t : Tmpl) (i : nat) (a : Alert) : Packet :=
  build_packet (Now i) (render Execute t a).2 a.

Lemma worker_app t pre : forall n rest,
  Forall has_data pre ->
  worker Execute Now EventID t n (pre ++ rest)
  = worker Execute Now EventID t n pre
    ++ worker Execute Now EventID t (n + length (flat_map message_alerts pre)) rest.
Proof.
  induction pre as [|wh pre IH]; intros n rest Hpre.
  - simpl. by rewrite Nat.add_0_r.
  - apply Forall_cons in Hpre as [[d Hd] Hpre']. simpl.
    unfold message_alerts at 1. rewrite Hd.
    rewrite IH by done. rewrite length_app, Nat.add_assoc.
    by rewrite <- app_assoc.
Qed.

Lemma range_alerts_logs t alerts : forall n,
  logs (range_alerts Execute Now EventID t n alerts)
  = imap (fun i a => [EventID (n + i) (packet_for t (n + i) a);
                      index (Labels a) "alertname"]) alerts.
Proof.
  induction alerts as [|a alerts IH]; intros n; [done|].
  simpl. unfold logs at 1. rewrite omap_app. fold (logs (range_alerts Execute Now EventID t (S n) alerts)).
  rewrite IH, Nat.add_0_r.
  assert (omap (fun ev : Event E => match ev with
                                    | Log_Printf _ args => Some args
                                    | _ => None
                                    end) (dispatch Execute Now EventID t n a)
          = [[EventID n (packet_for t n a); index (Labels a) "alertname"]]) as ->.
  { unfold dispatch, packet_for, render.
    destruct (Execute t a) as [buf [e|]]; reflexivity. }
  simpl. f_equal. apply imap_ext. intros i x _. simpl.
  by rewrite Nat.add_succ_r.
Qed.

Lemma worker_captures t delivered : forall n,
  Forall has_data delivered ->
  captures (worker Execute Now EventID t n delivered)
  = imap (fun i a => (packet_for t (n + i) a, Labels a))
         (flat_map message_alerts delivered).
Proof.
  induction delivered as [|wh delivered IH]; intros n Hall; [done|].
  apply Forall_cons in Hall as [[d Hd] Hall']. simpl.
  unfold message_alerts at 1. rewrite Hd.
  rewrite captures_app, range_alerts_captures, IH by done.
  rewrite imap_app. f_equal. apply imap_ext. intros i x _. simpl.
  by rewrite Nat.add_assoc.
Qed.

Lemma worker_logs t delivered : forall n,
  Forall has_data delivered ->
  logs (worker Execute Now EventID t n delivered)
  = imap (fun i a => [EventID (n + i) (packet_for t (n + i) a);
                      index (Labels a) "alertname"])
         (flat_map message_alerts delivered).
Proof.
  induction delivered as [|wh delivered IH]; intros n Hall; [done|].
  apply Forall_cons in Hall as [[d Hd] Hall']. simpl.
  unfold message_alerts at 1. rewrite Hd.
  unfold logs at 1. rewrite omap_app.
  fold (logs (range_alerts Execute Now EventID t n (Alerts d))).
  fold (logs (worker Execute Now EventID t (n + length (Alerts d)) delivered)).
  rewrite range_alerts_logs, IH by done.
  rewrite imap_app. f_equal. apply imap_ext. intros i x _. simpl.
  by rewrite Nat.add_assoc.
Qed.

Lemma worker_serialized t delivered : forall n,
  Forall has_data delivered ->
  serialized None (worker Execute Now EventID t n delivered) = true.
Proof.
  induction delivered as [|wh delivered IH]; intros n Hall; [done|].
  apply Forall_cons in Hall as [[d Hd] Hall']. simpl. rewrite Hd.
  rewrite range_alerts_serialized. by apply IH.
Qed.

(** X1. Over everything the channel delivers, message after message,
    the worker submits the alerts in the order of the messages and,
    within a message, of its alerts; each with the packet built for it
    and its labels as tags, one at a time. *)
Theorem worker_keeps_arrival_order t n delivered :
  Forall has_data delivered ->
  captures (worker Execute Now EventID t n delivered)
  = imap (fun i a => (packet_for t (n + i) a, Labels a))
         (flat_map message_alerts delivered)
  /\ map snd (captures (worker Execute Now EventID t n delivered))
     = map Labels (flat_map message_alerts delivered)
  /\ serialized None (worker Execute Now EventID t n delivered) = true.
Proof.
  intros Hall. rewrite worker_captures by done.
  split; [reflexivity|]. split; [|by apply worker_serialized].
  generalize (flat_map message_alerts delivered) as alerts. intros alerts.
  generalize n. induction alerts as [|a alerts IH]; intros m; [done|].
  simpl. f_equal. rewrite <- (IH (S m)). f_equal.
  apply imap_ext. intros i x _. simpl. by rewrite Nat.add_succ_r.
Qed.

(** X2. A message whose data pointer is nil stops the worker when it is
    received: the messages before it are dispatched in full, the panic
    follows, and nothing of the messages after it is ever submitted. *)
Theorem nil_data_stops_the_worker t n pre wh post :
  Forall has_data pre ->
  MsgData wh = None ->
  worker Execute Now EventID t n (pre ++ wh :: post)
  = worker Execute Now EventID t n pre ++ [NilDereference]
  /\ captures (worker Execute Now EventID t n (pre ++ wh :: post))
     = captures (worker Execute Now EventID t n pre).
Proof.
  intros Hpre Hnil. rewrite worker_app by done. simpl. rewrite Hnil.
  split; [reflexivity|]. by rewrite captures_app, app_nil_r.
Qed.

(** X3. The worker writes one log line per alert it submits, in the
    same order, and the line carries the identifier [raven.Capture]
    returned for that alert's packet and the alert's name. *)
Theorem one_log_line_per_alert t n delivered :
  Forall has_data delivered ->
  logs (worker Execute Now EventID t n delivered)
  = imap (fun i a => [EventID (n + i) (packet_for t (n + i) a);
                      index (Labels a) "alertname"])
         (flat_map message_alerts delivered)
  /\ length (logs (worker Execute Now EventID t n delivered))
     = length (captures (worker Execute Now EventID t n delivered)).
Proof.
  intros Hall. rewrite worker_logs, worker_captures by done.
  split; [reflexivity|]. by rewrite !length_imap.
Qed.

(** X4. When the template fails, the message that goes out is never
    empty. *)
Theorem fallback_message_is_not_empty t alert buf e :
  Execute t alert = (buf, Some e) ->
  (render Execute t alert).2 <> "".
Proof.
  intros Hexec. unfold render. rewrite Hexec. simpl.
  destruct (decide (index (Labels alert) "alertname" = "")); [discriminate|done].
Qed.

(** What a submitted packet owes to the tags submitted with it. *)
Definition packet_matches_tags (pt : Packet * KV) : Prop :=
  Logger pt.1 = "alertmanager"
  /\ Fingerprint pt.1 = [index pt.2 "alertname"; index pt.2 "namespace";
                         index pt.2 "pod_name"]
  /\ ServerName pt.1 = index pt.2 "namespace" +:+ "/" +:+ index pt.2 "pod_name"
  /\ dom (Extra pt.1) = {["firing_since"; "firing_until"]}.

Lemma build_packet_matches now msg a :
  packet_matches_tags (build_packet now msg a, Labels a).
Proof.
  unfold packet_matches_tags. simpl. split_and!; try reflexivity;
    rewrite !dom_insert_L, dom_empty_L; set_solver.
Qed.

Lemma range_alerts_matches t alerts : forall n,
  Forall packet_matches_tags (captures (range_alerts Execute Now EventID t n alerts)).
Proof.
  induction alerts as [|a alerts IH]; intros n; [constructor|].
  simpl. rewrite captures_app, dispatch_captures. simpl.
  constructor; [apply build_packet_matches|apply IH].
Qed.

(** X5. Whatever the channel delivers, every packet the worker submits
    has the logger alertmanager, exactly the two extra entries
    firing_since and firing_until, and the fingerprint and server name
    made of the alertname, namespace and pod_name entries of the tags
    submitted with it, an absent entry counting as the empty string. *)
Theorem every_packet_matches_its_tags t n delivered :
  Forall packet_matches_tags (captures (worker Execute Now EventID t n delivered)).
Proof.
  revert n. induction delivered as [|wh delivered IH]; intros n; [constructor|].
  simpl. destruct (MsgData wh) as [d|]; [|by repeat constructor].
  rewrite captures_app. apply Forall_app. split; [apply range_alerts_matches|apply IH].
Qed.

End WorkerLoop.

(** ** The engine on particular templates and values *)

Fixpoint has_char (c : ascii) (s : string) : bool :=
  match s with
  | EmptyString => false
  | String c' s' => Ascii.eqb c' c || has_char c s'
  end.





Lemma lex_text s : forall txt acc,
  has_char "{" s = false ->
  Template.lex (Template.InText txt) acc s
  = Some (Template.flush_text (rev (list_ascii_of_string s) ++ txt) acc).
Proof.
  induction s as [|c s IH]; intros txt acc Hs; [reflexivity|].
  simpl in Hs. apply orb_false_elim in Hs as [Hc Hs].
  cbn [Template.lex]. rewrite Hc, IH by done.
  simpl. by rewrite <- app_assoc.
Qed.

Section EngineFacts.

Variable KV_method : string -> option (KV -> list string -> Template.ExecError + string).
Variable no_value : string.

(** X6. A template without any action, and without [<], compiles, and
    renders as itself on every alert. *)
Theorem literal_template_renders_itself src :
  has_char "{" src = false ->
  Template.has_lt src = false ->
  exists t, compile src = Some t
            /\ forall a, Template.Execute KV_method no_value t a = (src, None).
Proof.
  intros Hbrace Hlt. unfold compile, Template.html_Parse, Template.Parse.
  rewrite lex_text, app_nil_r by done.
  destruct src as [|c src].
  - eexists. split; [reflexivity|]. reflexivity.
  - assert (Template.flush_text (rev (list_ascii_of_string (String c src))) []
            = [Template.Text (String c src)]) as ->.
    { unfold Template.flush_text, Template.string_rev_of.
      rewrite rev_involutive, string_of_list_ascii_of_string.
      destruct (rev (list_ascii_of_string (String c src))) eqn:Hrev; [|done].
      apply (f_equal (@rev ascii)) in Hrev. by rewrite rev_involutive in Hrev. }
    cbn [Template.tree Template.in_text_context forallb]. rewrite Hlt.
    eexists. split; [reflexivity|]. reflexivity.
Qed.









End EngineFacts.

(** ** Start-up *)

Section StartupFacts.

Context {Tmpl RE PE : Type}.
Variable ReadFile : string -> RE + string.
Variable ParseTemplate : string -> PE + Tmpl.

(** X9. [run] gets as far as the listener exactly when the version was
    not asked for, the DSN is not empty, the template text is at hand
    (the default one when no path is given, the file's contents when
    the file can be read) and it parses; the DSN, the parsed template
    and the address it goes on with are those of the flags. *)
Theorem start_serves_iff flags dsn t addr :
  start ReadFile ParseTemplate flags = Serving dsn t addr
  <-> flag_version flags = false
      /\ flag_dsn flags <> ""
      /\ dsn = flag_dsn flags
      /\ addr = flag_addr flags
      /\ exists tmpl,
           (flag_template flags = "" /\ tmpl = defaultTemplate
            \/ flag_template flags <> ""
               /\ ReadFile (flag_template flags) = inr tmpl)
           /\ ParseTemplate tmpl = inr t.
Proof.
  unfold start, read_template. split.
  - destruct (flag_version flags); [discriminate|].
    destruct (decide (flag_dsn flags = "")) as [|Hdsn]; [discriminate|].
    destruct (decide (flag_template flags = "")) as [Hpath|Hpath].
    + destruct (ParseTemplate defaultTemplate) as [e|t'] eqn:Hparse; [discriminate|].
      intros [= <- <- <-]. repeat split; try done.
      exists defaultTemplate. split; [by left|done].
    + destruct (ReadFile (flag_template flags)) as [e|tmpl] eqn:Hread; [discriminate|].
      destruct (ParseTemplate tmpl) as [e|t'] eqn:Hparse; [discriminate|].
      intros [= <- <- <-]. repeat split; try done.
      exists tmpl. split; [by right|done].
  - intros (-> & Hdsn & -> & -> & tmpl & Hsrc & Hparse).
    destruct (decide (flag_dsn flags = "")); [done|].
    destruct Hsrc as [[Hpath ->]|[Hpath Hread]].
    + destruct (decide (flag_template flags = "")); [|done]. by rewrite Hparse.
    + destruct (decide (flag_template flags = "")); [done|].
      by rewrite Hread, Hparse.
Qed.

(** X10. Without a DSN the program never listens, whatever the other
    flags, the template file and the template: it prints the version
    and exits with status 0 when the version was asked for, and
    otherwise fails with the DSN error, before it reads any file, and
    exits with status 1. *)
Theorem no_dsn_never_serves flags :
  flag_dsn flags = "" ->
  (flag_version flags = true
   /\ start ReadFile ParseTemplate flags = PrintedVersion version
   /\ start_exit (start ReadFile ParseTemplate flags) = Some 0%Z)
  \/ (flag_version flags = false
      /\ start ReadFile ParseTemplate flags = Failed DSNRequired
      /\ start_exit (start ReadFile ParseTemplate flags) = Some 1%Z).
Proof.
  intros Hdsn. unfold start. destruct (flag_version flags).
  - left. by repeat split.
  - right. destruct (decide (flag_dsn flags = "")); [by repeat split|done].
Qed.

End StartupFacts.

(** ** Requests served one after the other *)

Section PipelineFacts.

Context {JE Tmpl E : Type}.
Variable Decode : string -> JE + WebhookMessage.
Variable Execute : Tmpl -> Alert -> string * option E.
Variable Now : nat -> Time.
Variable EventID : nat -> Packet -> string.

(** The message a request brings to the channel, if any. *)
Definition accepted (r : Request) : option WebhookMessage :=
  if Mux.routed r then
    match Decode (Body r) with
    | inr wh => Some wh
    | inl _ => None
    end
  else None.

Lemma enqueued_accepted rs : enqueued Decode rs = omap accepted rs.
Proof.
  induction rs as [|r rs IH]; [done|].
  change (enqueued Decode (r :: rs))
    with (match serve Decode r with
          | Some acts => sends acts
          | None => []
          end ++ enqueued Decode rs).
  rewrite IH. unfold serve, handler, accepted. simpl.
  destruct (Mux.routed r); [|done]. by destruct (Decode (Body r)).
Qed.

(** X11. Requests served one after the other bring to the channel, in
    their order, the messages of those that the mux routes to the
    handler and whose body decodes: one message each, nothing for the
    others. *)
Theorem enqueued_in_request_order rs :
  enqueued Decode rs = omap accepted rs
  /\ length (enqueued Decode rs) <= length rs.
Proof.
  split; [apply enqueued_accepted|].
  rewrite enqueued_accepted.
  induction rs as [|r rs IH]; [done|].
  change (omap accepted (r :: rs))
    with (match accepted r with
          | Some wh => wh :: omap accepted rs
          | None => omap accepted rs
          end).
  destruct (accepted r); simpl; lia.
Qed.

(** X12. From the requests to Sentry: when every message brought to the
    channel has its data, the worker submits the alerts of the accepted
    requests in the order of the requests and, within a request, of
    its alerts, each with its labels as tags. *)
Theorem requests_are_dispatched_in_order t n rs :
  Forall has_data (enqueued Decode rs) ->
  map snd (captures (worker Execute Now EventID t n (enqueued Decode rs)))
  = map Labels
        (flat_map (fun r => match accepted r with
                            | Some wh => message_alerts wh
                            | None => []
                            end) rs).
Proof.
  intros Hall. rewrite worker_captures by done.
  assert (flat_map message_alerts (enqueued Decode rs)
          = flat_map (fun r => match accepted r with
                               | Some wh => message_alerts wh
                               | None => []
                               end) rs) as ->.
  { rewrite enqueued_accepted. clear Hall.
    induction rs as [|r rs IH]; [done|].
    change (omap accepted (r :: rs))
      with (match accepted r with
            | Some wh => wh :: omap accepted rs
            | None => omap accepted rs
            end).
    cbn [flat_map]. destruct (accepted r) as [wh|]; cbn [flat_map]; by rewrite IH. }
  generalize (flat_map (fun r => match accepted r with
                                 | Some wh => message_alerts wh
                                 | None => []
                                 end) rs) as alerts.
  intros alerts. generalize n.
  induction alerts as [|a alerts IH]; intros m; [done|].
  simpl. f_equal. rewrite <- (IH (S m)). f_equal.
  apply imap_ext. intros i x _. simpl. by rewrite Nat.add_succ_r.
Qed.

End PipelineFacts.

(** ** More on the running process *)

(** Where the channel is closed and where it is open. *)
Definition closed_exactly (p : MainPC) (c : bool) : Prop :=
  match p with
  | RunReturned None => c = true
  | Exited s => (s = 0%Z /\ c = true) \/ (s = 1%Z /\ c = false) \/ s = 2%Z
  | _ => c = false
  end.

Lemma closed_exactly_step st st' :
  inv st -> closed_exactly (pc st) (Chan.closed (hookChan st)) ->
  step st st' ->
  closed_exactly (pc st') (Chan.closed (hookChan st')).
Proof.
  intros Hinv Hpc Hstep. pose proof (no_room st Hinv) as Hroom.
  destruct Hinv as (Hcap & Hbuf & _).
  step_cases Hstep; rewrite ?deliver_chan, ?enter_alerts_chan;
    simpl; try done; try congruence.
  - (* signal *) rewrite Hp in Hpc. done.
  - (* line 158 *)
    unfold enter_alerts. destruct (MsgData wh); simpl; [done|]. auto.
  - (* Shutdown returns nil *) rewrite Hp in Hpc. done.
  - (* Shutdown returns an error *) rewrite Hp in Hpc. done.
  - unfold drain_poll, Chan.len. rewrite Hbuf. simpl. done.
  - rewrite Hp in Hpc. destruct err; simpl; [right; left|left]; by rewrite Hpc.
Qed.

Lemma closed_exactly_reachable st :
  reachable st -> closed_exactly (pc st) (Chan.closed (hookChan st)).
Proof.
  intros Hreach.
  cut (inv st /\ closed_exactly (pc st) (Chan.closed (hookChan st))); [tauto|].
  revert st Hreach.
  apply (rtc_ind_r (fun st => inv st
                              /\ closed_exactly (pc st) (Chan.closed (hookChan st)))).
  - split; [apply inv_initial|reflexivity].
  - intros st st' Hrun Hstep [Hinv Hpc].
    split; [by eapply inv_step|by eapply closed_exactly_step].
Qed.

(** X13. In every state the process reaches, the channel is closed only
    once [run] has returned nil: with the channel closed, [run] has
    returned nil, or the process has exited with status 0, or with
    status 2 on a panic of the worker; the channel is closed whenever
    [run] has returned nil or the process has exited with status 0; and
    it is open on the exit with status 1. *)
Theorem closed_iff_run_returned_nil st :
  reachable st ->
  (Chan.closed (hookChan st) = true ->
   pc st = RunReturned None \/ pc st = Exited 0 \/ pc st = Exited 2)
  /\ (pc st = RunReturned None \/ pc st = Exited 0 ->
      Chan.closed (hookChan st) = true)
  /\ (pc st = Exited 1 -> Chan.closed (hookChan st) = false).
Proof.
  intros Hpc%closed_exactly_reachable. split; [|split].
  - intros Hclosed. rewrite Hclosed in Hpc.
    destruct (pc st) as [| | |[e|]|s]; simpl in Hpc; try discriminate; auto.
    destruct Hpc as [[-> _]|[[_ ?]| ->]]; auto. discriminate.
  - intros [Hp|Hp]; rewrite Hp in Hpc; simpl in Hpc; [done|].
    destruct Hpc as [[_ ?]|[[? _]|?]]; done.
  - intros Hp. rewrite Hp in Hpc. simpl in Hpc.
    destruct Hpc as [[? _]|[[_ ?]|?]]; done.
Qed.

(** The worker holds the alerts of a message, [run] has returned nil
    and the process has exited, none of them submitted. *)
Definition st_cut_short (d : Data) : State :=
  mkState (Chan.close make_hookChan) [] (InAlerts (Alerts d)) (Exited 0) [].

(** X14. A clean exit does not wait for the worker: for any message,
    the process can exit with status 0 while the worker still holds all
    the alerts of that message, none of them submitted. *)
Theorem clean_exit_may_drop_the_last_message d :
  reachable (st_cut_short d)
  /\ pc (st_cut_short d) = Exited 0
  /\ pending (wk (st_cut_short d)) = Alerts d
  /\ dispatched (st_cut_short d) = [].
Proof.
  split; [|done]. unfold reachable.
  eapply rtc_l; [exact (step_arrive initial (mkWebhookMessage (Some d)) I)|].
  eapply rtc_l.
  { apply (step_handoff _ [] (mkWebhookMessage (Some d)) []); done. }
  eapply rtc_l.
  { exact (step_enter (mkState make_hookChan []
                               (Received (mkWebhookMessage (Some d)))
                               AwaitSignal [])
                      (mkWebhookMessage (Some d)) I eq_refl). }
  eapply rtc_l.
  { exact (step_signal (mkState make_hookChan [] (InAlerts (Alerts d))
                                AwaitSignal []) eq_refl). }
  eapply rtc_l.
  { exact (step_shutdown_nil (mkState make_hookChan [] (InAlerts (Alerts d))
                                      InShutdown []) eq_refl eq_refl). }
  eapply rtc_l.
  { exact (step_poll (mkState make_hookChan [] (InAlerts (Alerts d))
                              Draining []) eq_refl). }
  apply rtc_once.
  exact (step_exit (mkState (Chan.close make_hookChan) [] (InAlerts (Alerts d))
                            (RunReturned None) []) None eq_refl).
Qed.

(** X15. While the channel is open no message is lost: the only step
    that takes a handler away from its send hands its message to the
    worker, which stands at its receive. *)
Theorem open_channel_loses_no_message st st' :
  reachable st ->
  Chan.closed (hookChan st) = false ->
  step st st' ->
  length (senders st') < length (senders st) ->
  exists l1 wh l2,
    senders st = l1 ++ wh :: l2
    /\ wk st = AtRange
    /\ st' = deliver wh (set_senders (l1 ++ l2) st).
Proof.
  intros Hinv%inv_reachable Hopen Hstep Hless.
  pose proof (no_room st Hinv) as Hroom.
  step_cases Hstep; rewrite ?enter_alerts_senders in Hless;
    try congruence; simpl in Hless; try lia.
  - rewrite length_app in Hless. simpl in Hless. lia.
  - by exists l1, wh, l2.
  - unfold drain_poll in Hless. destruct (0 <? _)%nat; simpl in Hless; lia.
Qed.

Lemma step_dispatches st st' :
  step st st' ->
  (dispatched st' = dispatched st
   /\ (pending (wk st') = pending (wk st) \/ pending (wk st) = []))
  \/ (exists a, dispatched st' = dispatched st ++ [a]
                /\ pending (wk st) = a :: pending (wk st')).
Proof.
  intros Hstep.
  step_cases Hstep;
    try (left; split; [done|]; by left);
    try (left; split; [done|]; right; by rewrite Hw).
  - right. exists a. simpl. by rewrite Hw.
  - left. rewrite enter_alerts_dispatched. split; [done|]. left.
    rewrite Hw. unfold enter_alerts.
    destruct (MsgData wh) as [d|] eqn:Hd; simpl; rewrite ?Hw; simpl;
      by rewrite ?Hd.
  - left. unfold drain_poll. destruct (0 <? _)%nat; simpl; split; [done| |done|]; by left.
Qed.

(** X16. The alerts of the message the worker holds are submitted in
    their order and before any alert of a later message: along any run,
    what is submitted is a part of them from the front, or all of them
    followed by more. *)
Theorem held_alerts_go_first st st' :
  rtc step st st' ->
  exists l,
    dispatched st' = dispatched st ++ l
    /\ ((exists k, pending (wk st) = l ++ k) \/ (exists k, l = pending (wk st) ++ k)).
Proof.
  intros Hrun. induction Hrun as [st|st st1 st' Hstep Hrun (l & Hd & Hl)].
  - exists []. rewrite app_nil_r. split; [done|]. left. by exists (pending (wk st)).
  - destruct (step_dispatches _ _ Hstep) as [[Hd1 [Hp|Hp]]|(a & Hd1 & Hp)].
    + exists l. rewrite Hd, Hd1, <- Hp. by split.
    + exists l. rewrite Hd, Hd1, Hp. split; [done|]. right. by exists l.
    + exists (a :: l). rewrite Hd, Hd1, Hp, <- app_assoc. split; [done|].
      destruct Hl as [[k ->]|[k ->]]; [left|right]; by exists k.
Qed.

(** ** Witnesses for the further properties *)

(** A message without its data. *)
Definition Nil_message : WebhookMessage := mkWebhookMessage None.

Lemma worker_keeps_arrival_order_witness :
  map snd (captures (worker (Template.Execute no_methods "") (fun _ => 0%Z)
                            (fun _ _ => "id") default_compiled 0
                            [PodDown_message; Bare_message]))
  = [Labels (PodDown 1%Z 0%Z); Labels Bare].
Proof.
  refine (proj1 (proj2 (worker_keeps_arrival_order
                          (Template.Execute no_methods "") (fun _ => 0%Z)
                          (fun _ _ => "id") default_compiled 0
                          [PodDown_message; Bare_message] _))).
  repeat constructor; by eexists.
Defined.

Lemma nil_data_stops_the_worker_witness :
  captures (worker (Template.Execute no_methods "") (fun _ => 0%Z)
                   (fun _ _ => "id") default_compiled 0
                   ([PodDown_message] ++ Nil_message :: [Bare_message]))
  = captures (worker (Template.Execute no_methods "") (fun _ => 0%Z)
                     (fun _ _ => "id") default_compiled 0 [PodDown_message]).
Proof.
  refine (proj2 (nil_data_stops_the_worker
                   (Template.Execute no_methods "") (fun _ => 0%Z)
                   (fun _ _ => "id") default_compiled 0
                   [PodDown_message] Nil_message [Bare_message] _ eq_refl)).
  repeat constructor; by eexists.
Defined.

Lemma one_log_line_per_alert_witness :
  logs (worker (Template.Execute no_methods "") (fun _ => 0%Z)
               (fun _ _ => "id") default_compiled 0
               [PodDown_message; Bare_message])
  = [["id"; "PodDown"]; ["id"; ""]].
Proof.
  refine (proj1 (one_log_line_per_alert
                   (Template.Execute no_methods "") (fun _ => 0%Z)
                   (fun _ _ => "id") default_compiled 0
                   [PodDown_message; Bare_message] _)).
  repeat constructor; by eexists.
Defined.

Lemma fallback_message_is_not_empty_witness :
  (render (Template.Execute no_methods "") field_of_string Bare).2 <> "".
Proof.
  refine (fallback_message_is_not_empty (Template.Execute no_methods "")
            field_of_string Bare "" (Template.CantEvaluateField "x" "string") _).
  vm_compute. reflexivity.
Defined.

Lemma literal_template_renders_itself_witness :
  exists t, compile "alert" = Some t
            /\ forall a, Template.Execute no_methods "" t a = ("alert", None).
Proof.
  refine (literal_template_renders_itself no_methods "" "alert" _ _);
    reflexivity.
Defined.





(** A file system without files, and the program's own parser. *)
Definition no_files : string -> unit + string := fun _ => inl tt.
Definition parse_or_fail (src : string) : unit + Template.Template :=
  match compile src with
  | Some t => inr t
  | None => inl tt
  end.

Lemma start_serves_iff_witness :
  start no_files parse_or_fail (mkFlags false "dsn" "" "0.0.0.0:9096")
  = Serving "dsn" default_compiled "0.0.0.0:9096".
Proof.
  refine (proj2 (start_serves_iff no_files parse_or_fail
                   (mkFlags false "dsn" "" "0.0.0.0:9096")
                   "dsn" default_compiled "0.0.0.0:9096") _).
  split; [reflexivity|]. split; [discriminate|].
  split; [reflexivity|]. split; [reflexivity|].
  exists defaultTemplate. split; [left; by split|].
  vm_compute. reflexivity.
Defined.

Lemma no_dsn_never_serves_witness :
  (flag_version default_flags = true
   /\ start no_files parse_or_fail default_flags = PrintedVersion version
   /\ start_exit (start no_files parse_or_fail default_flags) = Some 0%Z)
  \/ (flag_version default_flags = false
      /\ start no_files parse_or_fail default_flags = Failed DSNRequired
      /\ start_exit (start no_files parse_or_fail default_flags) = Some 1%Z).
Proof.
  exact (no_dsn_never_serves no_files parse_or_fail default_flags eq_refl).
Defined.

Lemma requests_are_dispatched_in_order_witness :
  map snd (captures (worker (Template.Execute no_methods "") (fun _ => 0%Z)
                            (fun _ _ => "id") default_compiled 0
                            (enqueued (decodes_to PodDown_message)
                                      [mkRequest "GET" "/metrics" "body";
                                       mkRequest "POST" "//" "body";
                                       mkRequest "POST" "/" "body"])))
  = [Labels (PodDown 1%Z 0%Z); Labels (PodDown 1%Z 0%Z)].
Proof.
  refine (requests_are_dispatched_in_order (decodes_to PodDown_message)
            (Template.Execute no_methods "") (fun _ => 0%Z) (fun _ _ => "id")
            default_compiled 0
            [mkRequest "GET" "/metrics" "body";
             mkRequest "POST" "//" "body";
             mkRequest "POST" "/" "body"] _).
  repeat constructor; by eexists.
Defined.

Lemma st_after_reachable : reachable st_after.
Proof.
  eapply rtc_r.
  - eapply rtc_r; [exact st_draining_reachable|].
    exact (step_poll st_draining eq_refl).
  - exact (step_dispatch (drain_poll st_draining) (PodDown 1%Z 0%Z) [] I eq_refl).
Qed.

Lemma closed_iff_run_returned_nil_witness :
  Chan.closed (hookChan st_after) = true.
Proof.
  refine (proj1 (proj2 (closed_iff_run_returned_nil st_after st_after_reachable)) _).
  left. reflexivity.
Defined.

(** A handler stands at its send and the worker at its receive. *)
Definition st_arrived : State :=
  mkState make_hookChan [PodDown_message] AtRange AwaitSignal [].

(** The worker has taken the message. *)
Definition st_taken : State :=
  mkState make_hookChan [] (Received PodDown_message) AwaitSignal [].

Lemma st_arrived_reachable : reachable st_arrived.
Proof. apply rtc_once. exact (step_arrive initial PodDown_message I). Qed.

Lemma st_arrived_taken : step st_arrived st_taken.
Proof. apply (step_handoff st_arrived [] PodDown_message []); done. Qed.

Lemma open_channel_loses_no_message_witness :
  exists l1 wh l2,
    senders st_arrived = l1 ++ wh :: l2
    /\ wk st_arrived = AtRange
    /\ st_taken = deliver wh (set_senders (l1 ++ l2) st_arrived).
Proof.
  refine (open_channel_loses_no_message st_arrived st_taken
            st_arrived_reachable eq_refl st_arrived_taken _).
  simpl. lia.
Defined.

Lemma held_alerts_go_first_witness :
  exists l,
    dispatched st_after = dispatched (drain_poll st_draining) ++ l
    /\ ((exists k, pending (wk (drain_poll st_draining)) = l ++ k)
        \/ (exists k, l = pending (wk (drain_poll st_draining)) ++ k)).
Proof.
  exact (held_alerts_go_first (drain_poll st_draining) st_after st_after_run).
Defined.
